(** * Solar pool heater (pool_heater-mk3.ino): a shallow embedding

    The sketch keeps its whole state in global variables and drives a
    finite-state machine from [loop].  The embedding follows that shape:
    a record for the globals, one function per handler of the sketch,
    the transition table as [setup] registers it, and one function for a
    pass of [loop]. *)

From Stdlib Require Import ZArith QArith Qabs Qround List String Ascii Bool.
From Stdlib Require Import Lia Lqa.
Import ListNotations.

Local Open Scope Z_scope.

(** ** Machine integers

    The sketch is written for an AVR board (a 10-bit [analogRead], the
    core's [tone], the page-buffered display driver), where [int] is 16
    bits wide and [long] is 32 bits wide.  Values are kept in [Z]; an
    arithmetic result is brought back into range by two's-complement
    wrap-around.  C leaves the overflow of a signed operation
    undefined: a statement about the code keeps its operands where the
    result is in range. *)

Definition wrap (bits : Z) (z : Z) : Z :=
  (z + 2 ^ (bits - 1)) mod 2 ^ bits - 2 ^ (bits - 1).

Definition INT_BITS : Z := 16.
Definition LONG_BITS : Z := 32.

Definition INT_MAX : Z := 2 ^ (INT_BITS - 1) - 1.
Definition INT_MIN : Z := - 2 ^ (INT_BITS - 1).

Definition in_int (z : Z) : Prop := INT_MIN <= z <= INT_MAX.

Definition int_add (a b : Z) : Z := wrap INT_BITS (a + b).

Definition long_add (a b : Z) : Z := wrap LONG_BITS (a + b).
Definition long_sub (a b : Z) : Z := wrap LONG_BITS (a - b).
Definition long_mul (a b : Z) : Z := wrap LONG_BITS (a * b).
(** C division truncates toward zero. *)
Definition long_div (a b : Z) : Z := wrap LONG_BITS (Z.quot a b).
Definition int_of_long (a : Z) : Z := wrap INT_BITS a.

(** ** What the sketch uses of the Arduino core *)

Module Arduino.

(** Digital levels (Arduino.h). *)
Definition HIGH : Z := 1.
Definition LOW : Z := 0.

(** Modelled from the spec: the core's [map], which is not part of the
    sketch.  Section 4.3 describes the setpoint as mapped linearly from
    the raw dial range into the degree range; this is the linear map
    taking [in_min] to [out_min] and [in_max] to [out_max], computed in
    [long] arithmetic with a truncating division. *)
Definition map (x in_min in_max out_min out_max : Z) : Z :=
  long_add
    (long_div (long_mul (long_sub x in_min) (long_sub out_max out_min))
              (long_sub in_max in_min))
    out_min.

End Arduino.

Definition HIGH : Z := Arduino.HIGH.
Definition LOW : Z := Arduino.LOW.

(** ** C strings in a fixed buffer *)

Definition NUL : ascii := Ascii.zero.

Definition chars (s : string) : list ascii := list_ascii_of_string s.

(** [strcpy dst src] writes the characters of [src] and a terminator at
    the start of [dst].  Bytes that do not fit in [dst] would be written
    past its end: the model keeps them, so the result is longer than
    [dst] exactly when the copy overflows. *)
Definition strcpy (dst : list ascii) (src : string) : list ascii :=
  chars src ++ NUL :: skipn (S (List.length (chars src))) dst.

Definition fits (dst : list ascii) (src : string) : Prop :=
  (S (List.length (chars src)) <= List.length dst)%nat.

(** The string a reader of the buffer sees: everything before the first
    terminator. *)
Fixpoint cstr (buf : list ascii) : list ascii :=
  match buf with
  | [] => []
  | c :: rest => if Ascii.eqb c NUL then [] else c :: cstr rest
  end.

(** ** Global variables of the sketch (lines 45-47) *)

Record Globals : Type := mkGlobals {
  poolTemp : Z;
  poolSet : Z;
  coilTemp : Z;
  coilSet : Z;
  statusBuffer : list ascii;   (* char statusBuffer[8] *)
  ledState : Z;
  pumpState : Z
}.

Definition STATUS_SIZE : nat := 8.

(** Statically allocated objects start zeroed. *)
Definition globals0 : Globals :=
  mkGlobals 0 0 0 0 (repeat NUL STATUS_SIZE) 0 0.

Definition set_status (g : Globals) (b : list ascii) : Globals :=
  mkGlobals (poolTemp g) (poolSet g) (coilTemp g) (coilSet g) b
            (ledState g) (pumpState g).

Definition set_outputs (g : Globals) (led pump : Z) : Globals :=
  mkGlobals (poolTemp g) (poolSet g) (coilTemp g) (coilSet g)
            (statusBuffer g) led pump.

Definition set_coilSet (g : Globals) (v : Z) : Globals :=
  mkGlobals (poolTemp g) (poolSet g) (coilTemp g) v
            (statusBuffer g) (ledState g) (pumpState g).

Definition set_readings (g : Globals) (pool coil set : Z) : Globals :=
  mkGlobals pool set coil (coilSet g)
            (statusBuffer g) (ledState g) (pumpState g).

(** The status label as the display reads it. *)
Definition label (g : Globals) : list ascii := cstr (statusBuffer g).

(** ** Events (lines 59-64) *)

Inductive Event : Type :=
| POOL_NOT_HEATED
| POOL_HEATED
| COIL_NOT_PRIMED
| COIL_PRIMED
| COIL_NOT_READY
| COIL_READY.

Definition event_code (e : Event) : Z :=
  match e with
  | POOL_NOT_HEATED => 0
  | POOL_HEATED => 1
  | COIL_NOT_PRIMED => 2
  | COIL_PRIMED => 3
  | COIL_NOT_READY => 4
  | COIL_READY => 5
  end.

(** ** State handlers (lines 97-188)

    A handler changes the globals and may call [fsm.trigger]; the model
    returns the new globals and the event triggered, if any. *)

Definition Handler : Type := Globals -> Globals * option Event.

Definition check_pool_temp : Handler := fun g =>
  if poolTemp g >=? poolSet g
  then (g, Some POOL_HEATED)
  else (g, Some POOL_NOT_HEATED).

Definition enter_wait_state : Handler := fun g =>
  (set_status g (strcpy (statusBuffer g) "WAIT..."), None).

Definition enter_heat_state : Handler := fun g =>
  (set_status g (strcpy (statusBuffer g) "HEAT..."), None).

Definition check_coil_temp : Handler := fun g =>
  if coilTemp g >=? coilSet g
  then (g, Some COIL_READY)
  else (g, Some COIL_NOT_READY).

Definition check_coil_primed : Handler := fun g =>
  if coilTemp g <=? int_add (poolTemp g) 2
  then (g, Some COIL_PRIMED)
  else (g, Some COIL_NOT_PRIMED).

Definition enter_pump_state : Handler := fun g =>
  let g1 := set_outputs g HIGH (pumpState g) in
  let g2 := set_outputs g1 (ledState g1) HIGH in
  (set_status g2 (strcpy (statusBuffer g2) "PUMP..."), None).

Definition exit_pump_state : Handler := fun g =>
  let g1 := set_outputs g LOW (pumpState g) in
  (set_outputs g1 (ledState g1) LOW, None).

(** ** Notification callbacks (lines 190-202)

    The two chimes only drive the buzzer; what matters to the machine
    is which of them a transition carries. *)

Inductive Callback : Type :=
| makeGoodBeep
| makeBadBeep.

Inductive Notification : Type :=
| NONE
| SUCCESS
| FAILURE.

Definition notification_of (cb : option Callback) : Notification :=
  match cb with
  | None => NONE
  | Some makeGoodBeep => SUCCESS
  | Some makeBadBeep => FAILURE
  end.

(** ** States (lines 77-83) *)

Inductive State : Type :=
| check_pool_state
| wait_state
| heat_state
| small_heat_state
| check_coil_state
| check_primed_state
| pump_state.

Definition State_eqb (a b : State) : bool :=
  match a, b with
  | check_pool_state, check_pool_state
  | wait_state, wait_state
  | heat_state, heat_state
  | small_heat_state, small_heat_state
  | check_coil_state, check_coil_state
  | check_primed_state, check_primed_state
  | pump_state, pump_state => true
  | _, _ => false
  end.

(** The three handlers a [State] object is built from; [None] is the
    sketch's [NULL]. *)
Record StateDef : Type := mkState {
  on_enter : option Handler;
  on_state : option Handler;
  on_exit : option Handler
}.

Definition state_def (s : State) : StateDef :=
  match s with
  | check_pool_state => mkState (Some check_pool_temp) None None
  | wait_state => mkState (Some enter_wait_state) None None
  | heat_state => mkState (Some enter_heat_state) None None
  | small_heat_state => mkState (Some enter_heat_state) None None
  | check_coil_state => mkState (Some check_coil_temp) None None
  | check_primed_state => mkState (Some check_coil_primed) None None
  | pump_state => mkState (Some enter_pump_state) None (Some exit_pump_state)
  end.

(** Calling a handler through its pointer; [NULL] is skipped. *)
Definition run_handler (h : option Handler) (g : Globals) : Globals :=
  match h with
  | Some h => fst (h g)
  | None => g
  end.

(** ** The transitions [setup] registers (lines 228-241)

    A registration is a call of [add_transition] or of
    [add_timed_transition]: the state left, the event awaited or the
    duration in milliseconds, the state entered and the callback
    ([None] for [NULL]). *)

Inductive Trigger : Type :=
| OnEvent (e : Event)
| After (interval : Z).

Record Transition : Type := mkTransition {
  state_from : State;
  trigger : Trigger;
  state_to : State;
  on_transition : option Callback
}.

(** The ten calls, in the order of the sketch. *)
Definition registered : list Transition :=
  [ mkTransition check_pool_state (OnEvent POOL_HEATED) wait_state
                 (Some makeGoodBeep);
    mkTransition wait_state (After 6000) check_pool_state None;
    mkTransition check_pool_state (OnEvent POOL_NOT_HEATED) heat_state
                 (Some makeGoodBeep);
    mkTransition heat_state (After 12000) check_coil_state
                 (Some makeGoodBeep);
    mkTransition check_coil_state (OnEvent COIL_NOT_READY) small_heat_state
                 None;
    mkTransition small_heat_state (After 6000) check_coil_state None;
    mkTransition check_coil_state (OnEvent COIL_READY) check_primed_state
                 (Some makeGoodBeep);
    mkTransition check_primed_state (OnEvent COIL_NOT_PRIMED) pump_state
                 (Some makeGoodBeep);
    mkTransition pump_state (After 2000) check_primed_state None;
    mkTransition check_primed_state (OnEvent COIL_PRIMED) wait_state
                 (Some makeGoodBeep) ].

Definition is_event (ev : Event) (t : Transition) : bool :=
  match trigger t with
  | OnEvent e => event_code e =? event_code ev
  | After _ => false
  end.

Definition is_timed (t : Transition) : bool :=
  match trigger t with
  | OnEvent _ => false
  | After _ => true
  end.

Definition leaves (s : State) (t : Transition) : bool :=
  State_eqb (state_from t) s.

Definition decision_state (s : State) : bool :=
  match s with
  | check_pool_state | check_coil_state | check_primed_state => true
  | _ => false
  end.

Definition dwell_state (s : State) : bool := negb (decision_state s).

(** ** The state-machine engine

    The sketch includes [Fsm.h] (the [State] and [Fsm] classes with
    [add_transition], [add_timed_transition], [trigger] and
    [run_machine]), which is not among its sources.  The engine below
    is modelled from the spec, sections 3, 4.1 and 9.

    A cycle fires at most one transition: the event a decision state
    raises on entry is acted on by the cycle that evaluates its
    condition.  An engine that went on firing within the same cycle
    would pass through the same states as several cycles on the same
    inputs do here. *)

(** Modelled from the spec: the [Fsm] object of [Fsm.h], which is not in
    the sources; sections 2 and 3 give it a current state, the
    registered transitions and the time since the current state was
    entered. *)
Record Fsm : Type := mkFsm {
  m_current_state : State;
  m_transitions : list Transition;
  m_entered : Z                (* clock value when the state was entered *)
}.

(** Modelled from the spec: the constructor of [Fsm.h]; section 3 has
    the machine created once in its initial state. *)
Definition Fsm_new (initial_state : State) : Fsm :=
  mkFsm initial_state [] 0.

(** Modelled from the spec: [Fsm::add_transition], not in the sources;
    section 4.1 has initialization register the transitions, in the
    order given. *)
Definition add_transition (f : Fsm) (from to : State) (event : Event)
    (cb : option Callback) : Fsm :=
  mkFsm (m_current_state f)
        (m_transitions f ++ [mkTransition from (OnEvent event) to cb])
        (m_entered f).

(** Modelled from the spec: [Fsm::add_timed_transition], not in the
    sources; as [add_transition], with a duration for trigger. *)
Definition add_timed_transition (f : Fsm) (from to : State) (interval : Z)
    (cb : option Callback) : Fsm :=
  mkFsm (m_current_state f)
        (m_transitions f ++ [mkTransition from (After interval) to cb])
        (m_entered f).

(** Modelled from the spec: the lookup of [Fsm::trigger], not in the
    sources: the first registered transition out of the current state
    for [ev] (section 9: an event raised fires the matching
    transition). *)
Definition find_event (f : Fsm) (ev : Event) : option Transition :=
  find (fun t => leaves (m_current_state f) t && is_event ev t)
       (m_transitions f).

(** Modelled from the spec: the lookup of the timed transition of the
    current state, not in the sources (section 4.1: a cycle checks the
    timed transition of the current state). *)
Definition find_timed (f : Fsm) : option Transition :=
  find (fun t => leaves (m_current_state f) t && is_timed t)
       (m_transitions f).

(** Modelled from the spec: the condition a cycle evaluates, not in the
    sources; section 4.1 has it as the re-test made by the handler of a
    decision state, which raises one of its two events, and as nothing
    for a dwell state. *)
Definition raised (s : State) (g : Globals) : option Event :=
  match on_enter (state_def s) with
  | Some h => snd (h g)
  | None => None
  end.

(** Modelled from the spec: the firing of a transition, not in the
    sources; section 3 has the exit action of the state left and the
    entry action of the state entered run once each and the time in
    state restart. *)
Definition make_transition (now : Z) (t : Transition) (g : Globals)
    (f : Fsm) : Globals * Fsm :=
  let g1 := run_handler (on_exit (state_def (state_from t))) g in
  let g2 := run_handler (on_enter (state_def (state_to t))) g1 in
  (g2, mkFsm (state_to t) (m_transitions f) now).

(** Modelled from the spec: the test of a timed trigger, not in the
    sources; section 9 has it hold once the elapsed time in the state
    meets or exceeds the duration. *)
Definition expired (now : Z) (f : Fsm) (t : Transition) : bool :=
  match trigger t with
  | OnEvent _ => false
  | After interval => interval <=? now - m_entered f
  end.

(** Modelled from the spec: the timed half of a cycle, not in the
    sources (section 9). *)
Definition check_timed_transitions (now : Z) (g : Globals) (f : Fsm)
    : Globals * Fsm * option Transition :=
  match find_timed f with
  | Some t =>
      if expired now f t
      then (make_transition now t g f, Some t)
      else (g, f, None)
  | None => (g, f, None)
  end.

(** Modelled from the spec: [Fsm::run_machine], one cycle of the engine,
    not in the sources; section 9 has the event checked before the
    timer.  The third component is the transition fired, if any. *)
Definition run_machine (now : Z) (g : Globals) (f : Fsm)
    : Globals * Fsm * option Transition :=
  match raised (m_current_state f) g with
  | Some ev =>
      match find_event f ev with
      | Some t => (make_transition now t g f, Some t)
      | None => check_timed_transitions now g f
      end
  | None => check_timed_transitions now g f
  end.

(** ** The sketch as a whole *)

Record Machine : Type := mkMachine {
  globals : Globals;
  fsm : Fsm
}.

(** State before [setup]: zeroed globals and [Fsm fsm(&check_pool_state)]
    (line 84). *)
Definition power_on : Machine :=
  mkMachine globals0 (Fsm_new check_pool_state).

(** [setup] (lines 212-262): the ten transitions, the coil setpoint and
    the two outputs.  Durations are in milliseconds. *)
Definition setup (m : Machine) : Machine :=
  let f := fsm m in
  let f := add_transition f check_pool_state wait_state POOL_HEATED
                          (Some makeGoodBeep) in
  let f := add_timed_transition f wait_state check_pool_state 6000 None in
  let f := add_transition f check_pool_state heat_state POOL_NOT_HEATED
                          (Some makeGoodBeep) in
  let f := add_timed_transition f heat_state check_coil_state 12000
                                (Some makeGoodBeep) in
  let f := add_transition f check_coil_state small_heat_state COIL_NOT_READY
                          None in
  let f := add_timed_transition f small_heat_state check_coil_state 6000
                                None in
  let f := add_transition f check_coil_state check_primed_state COIL_READY
                          (Some makeGoodBeep) in
  let f := add_transition f check_primed_state pump_state COIL_NOT_PRIMED
                          (Some makeGoodBeep) in
  let f := add_timed_transition f pump_state check_primed_state 2000 None in
  let f := add_transition f check_primed_state wait_state COIL_PRIMED
                          (Some makeGoodBeep) in
  let g := set_coilSet (globals m) 90 in
  let g := set_outputs g LOW (pumpState g) in
  let g := set_outputs g (ledState g) LOW in
  mkMachine g f.

(** What one pass of [loop] reads from the hardware. *)
Record Inputs : Type := mkInputs {
  tempF_pool : Q;     (* sensors.getTempF(poolSensor) *)
  tempF_coil : Q;     (* sensors.getTempF(coilSensor) *)
  analogRead : Z;     (* analogRead(POT_PIN) *)
  millis : Z          (* the clock the engine reads *)
}.

(** What one pass of [loop] shows to the outside. *)
Record Outputs : Type := mkOutputs {
  status_line : list ascii;   (* the string drawn on LINE4 *)
  led_pin : Z;
  pump_pin : Z;
  fired : option Transition
}.

Definition notification (o : Outputs) : Notification :=
  match fired o with
  | Some t => notification_of (on_transition t)
  | None => NONE
  end.

(** Conversion of a real value to an integer type drops the
    fraction. *)
Definition trunc (q : Q) : Z := Z.quot (Qnum q) (Zpos (Qden q)).

(** Lines 267-268: the reading plus one half, converted to [int]. *)
Definition read_temp (r : Q) : Z := trunc (r + (1 # 2))%Q.

(** Line 273. *)
Definition read_setpoint (raw : Z) : Z :=
  int_of_long (Arduino.map raw 1023 0 50 90).

(** Lines 265-273: the globals once the readings are stored. *)
Definition refreshed (i : Inputs) (g : Globals) : Globals :=
  set_readings g
               (read_temp (tempF_pool i))
               (read_temp (tempF_coil i))
               (read_setpoint (analogRead i)).

(** [loop] (lines 264-307). *)
Definition loop (i : Inputs) (m : Machine) : Machine * Outputs :=
  let g := refreshed i (globals m) in
  let shown := label g in
  let led := ledState g in
  let pump := pumpState g in
  let '(g', f', t) := run_machine (millis i) g (fsm m) in
  (mkMachine g' f', mkOutputs shown led pump t).

(** Executions: the machine after [setup] and any number of passes of
    [loop], with the transitions fired so far (latest first). *)
Definition history (o : Outputs) : list Transition :=
  match fired o with
  | Some t => [t]
  | None => []
  end.

Inductive run : list Transition -> Machine -> Prop :=
| run_setup : run [] (setup power_on)
| run_loop : forall tr m i,
    run tr m -> run (history (snd (loop i m)) ++ tr) (fst (loop i m)).

Definition reachable (m : Machine) : Prop := exists tr, run tr m.

(** * Notions used in the statements *)

(** Transitions registered out of a state, and those among them that are
    timed or wait for an event. *)
Definition outgoing (s : State) : list Transition :=
  filter (leaves s) registered.

Definition outgoing_timed (s : State) : list Transition :=
  filter (fun t => leaves s t && is_timed t) registered.

Definition outgoing_event (s : State) : list Transition :=
  filter (fun t => leaves s t && negb (is_timed t)) registered.

Definition outgoing_on (s : State) (ev : Event) : list Transition :=
  filter (fun t => leaves s t && is_event ev t) registered.

(** [n] is a nearest integer to [r]: no integer is closer. *)
Definition nearest (r : Q) (n : Z) : Prop :=
  forall k : Z, (Qabs (inject_Z n - r) <= Qabs (inject_Z k - r))%Q.

(** The value the sensor library reports for a disconnected sensor,
    -196.6 degrees Fahrenheit. *)
Definition disconnected_F : Q := (-1966 # 10)%Q.

(** The engine in state [s] with the table of [setup]. *)
Definition at_state (s : State) (entered : Z) : Fsm :=
  mkFsm s registered entered.

Definition tick_globals (now : Z) (g : Globals) (f : Fsm) : Globals :=
  fst (fst (run_machine now g f)).

Definition tick_state (now : Z) (g : Globals) (f : Fsm) : State :=
  m_current_state (snd (fst (run_machine now g f))).

Definition tick_notification (now : Z) (g : Globals) (f : Fsm)
    : Notification :=
  match snd (run_machine now g f) with
  | Some t => notification_of (on_transition t)
  | None => NONE
  end.

(** Globals with the given temperatures and pool setpoint, as [loop]
    stores them after [setup]. *)
Definition with_readings (pool coil set : Z) : Globals :=
  set_readings (globals (setup power_on)) pool coil set.

(** The labels the sketch ever stores. *)
Definition labels : list (list ascii) :=
  [ []; chars "WAIT..."; chars "HEAT..."; chars "PUMP..." ].

(** What holds of the globals and the engine between two cycles. *)
Record invariant (g : Globals) (f : Fsm) : Prop := mkInvariant {
  inv_table : m_transitions f = registered;
  inv_size : List.length (statusBuffer g) = STATUS_SIZE;
  inv_label : In (label g) labels;
  inv_pump : pumpState g = HIGH <-> m_current_state f = pump_state;
  inv_led : ledState g = HIGH <-> m_current_state f = pump_state;
  inv_level : pumpState g = HIGH \/ pumpState g = LOW
}.

Definition enters_decision (t : Transition) : bool :=
  decision_state (state_to t).

Definition keeps_pump (h : Handler) : Prop :=
  forall g, pumpState (fst (h g)) = pumpState g /\
            ledState (fst (h g)) = ledState g.

(** Readings of a pass with the pool colder than the setpoint. *)
Definition cold_start : Inputs := mkInputs (70 # 1) (95 # 1) 256 0.

(** The handlers of the sketch. *)
Definition handlers : list Handler :=
  [ check_pool_temp; enter_wait_state; enter_heat_state; check_coil_temp;
    check_coil_primed; enter_pump_state; exit_pump_state ].

(** The globals the sketch can hold: those [setup] leaves, changed by
    any sequence of handler calls and of readings stored by [loop]. *)
Inductive touched : Globals -> Prop :=
| touched_setup : touched (globals (setup power_on))
| touched_call : forall h g,
    In h handlers -> touched g -> touched (fst (h g))
| touched_refresh : forall pool coil set g,
    touched g -> touched (set_readings g pool coil set).

(** Whole-degree readings at a given dial position and time. *)
Definition reading (pool coil raw now : Z) : Inputs :=
  mkInputs (inject_Z pool) (inject_Z coil) raw now.

(** The machine after [setup] and the given passes of [loop]. *)
Definition after (passes : list Inputs) : Machine :=
  fold_left (fun m i => fst (loop i m)) passes (setup power_on).

(** Pool at 70 under a setpoint of 79, coil at 95: heat, find the coil
    ready and not primed, and pump. *)
Definition heating_passes : list Inputs :=
  [ reading 70 95 256 0; reading 70 95 256 12000;
    reading 70 95 256 12500; reading 70 95 256 13000 ].

(** The pump burst over and the coil back at 71. *)
Definition pumped_passes : list Inputs :=
  heating_passes ++ [ reading 70 71 256 15000; reading 70 71 256 15500 ].

(** * The rest of the sketch *)

(** ** Centring a string (lines 205-210) *)

Definition int_sub (a b : Z) : Z := wrap INT_BITS (a - b).
Definition int_div (a b : Z) : Z := wrap INT_BITS (Z.quot a b).

(** What [calcStart] asks of the display driver: the width in pixels of
    a string in the current font and the width of the display, each as
    stored in an [int]. *)
Record Display : Type := mkDisplay {
  getStrWidth : list ascii -> Z;
  getDisplayWidth : Z
}.

Definition calcStart (u8g2 : Display) (str : list ascii) : Z :=
  let strWidth := getStrWidth u8g2 str in
  let scrWidth := getDisplayWidth u8g2 in
  int_div (int_sub scrWidth strWidth) 2.

(** ** The temperature lines (lines 284-294)

    [sprintf(tempBuffer, "%3d/%3d", a, b)] writes each number in
    decimal, with a minus sign when negative, padded with spaces on the
    left to three characters, and a terminator after the last one. *)

Definition digit (n : Z) : ascii := ascii_of_nat (48 + Z.to_nat n).

(** The decimal digits of [n >= 0]; a magnitude of an [int] has at most
    five. *)
Fixpoint digits (fuel : nat) (n : Z) : list ascii :=
  match fuel with
  | O => []
  | S fuel' =>
      if n <? 10 then [digit n]
      else digits fuel' (n / 10) ++ [digit (n mod 10)]
  end.

Definition print_d (z : Z) : list ascii :=
  if z <? 0 then "-"%char :: digits 5 (- z) else digits 5 z.

Definition pad (width : nat) (l : list ascii) : list ascii :=
  repeat " "%char (width - List.length l) ++ l.

Definition sprintf_3d_3d (a b : Z) : list ascii :=
  pad 3 (print_d a) ++ "/"%char :: pad 3 (print_d b).

(** [char tempBuffer[8]] *)
Definition TEMP_SIZE : nat := 8.

(** The bytes [sprintf] writes: the characters and the terminator. *)
Definition written (line : list ascii) : nat := S (List.length line).

Definition pool_line (g : Globals) : list ascii :=
  sprintf_3d_3d (poolTemp g) (poolSet g).

Definition coil_line (g : Globals) : list ascii :=
  sprintf_3d_3d (coilTemp g) (coilSet g).

(** ** The table a machine holds

    The transitions a machine holds out of a state, those among them
    that await an event, and those that await a given event. *)

Definition transitions_from (m : Machine) (s : State) : list Transition :=
  filter (leaves s) (m_transitions (fsm m)).

Definition event_transitions_from (m : Machine) (s : State)
    : list Transition :=
  filter (fun t => leaves s t && negb (is_timed t)) (m_transitions (fsm m)).

Definition transitions_on (m : Machine) (s : State) (ev : Event)
    : list Transition :=
  filter (fun t => leaves s t && is_event ev t) (m_transitions (fsm m)).

(** The transition a cycle of the engine fires, if any. *)
Definition tick_fired (now : Z) (g : Globals) (f : Fsm)
    : option Transition :=
  snd (run_machine now g f).

(** Walks through the transitions of a table. *)
Inductive path (table : list Transition) : State -> State -> Prop :=
| path_here : forall s, path table s s
| path_step : forall t s,
    In t table -> path table (state_to t) s ->
    path table (state_from t) s.

(** The readings [loop] stores when the pool sensor, or the coil
    sensor, is disconnected. *)
Definition pool_sensor_lost (g : Globals) : Prop :=
  poolTemp g = read_temp disconnected_F.

Definition coil_sensor_lost (g : Globals) : Prop :=
  coilTemp g = read_temp disconnected_F.

(** * Properties *)

(** ** Integers in range are left alone by the wrap-around *)

Lemma wrap_small (bits z : Z) :
  0 < bits -> - 2 ^ (bits - 1) <= z < 2 ^ (bits - 1) -> wrap bits z = z.
Proof.
  intros Hb Hz. unfold wrap.
  assert (Hp : 2 ^ bits = 2 * 2 ^ (bits - 1)).
  { replace bits with (Z.succ (bits - 1)) at 1 by lia.
    rewrite Z.pow_succ_r by lia. reflexivity. }
  rewrite Z.mod_small by lia. lia.
Qed.

Lemma long_small (z : Z) :
  - 2147483648 <= z < 2147483648 -> wrap LONG_BITS z = z.
Proof.
  intros H. apply wrap_small; [reflexivity|].
  change (2 ^ (LONG_BITS - 1)) with 2147483648. lia.
Qed.

Lemma int_small (z : Z) :
  - 32768 <= z < 32768 -> wrap INT_BITS z = z.
Proof.
  intros H. apply wrap_small; [reflexivity|].
  change (2 ^ (INT_BITS - 1)) with 32768. lia.
Qed.

Lemma int_add_exact (a b : Z) :
  in_int (a + b) -> int_add a b = a + b.
Proof.
  unfold in_int, INT_MIN, INT_MAX, int_add.
  change (2 ^ (INT_BITS - 1)) with 32768. intros H.
  apply int_small. lia.
Qed.

(** ** The transition table *)

(** [setup] leaves the engine with exactly the ten registrations. *)
Lemma setup_registers : m_transitions (fsm (setup power_on)) = registered.
Proof. reflexivity. Qed.


(** C5: in the table the machine holds after [setup], each of the four
    dwell states has exactly one outgoing transition, which is timed
    (no transition awaiting an event leaves a dwell state): Wait's goes
    to CheckPool with no notification, Heat's to CheckCoil with a
    success notification, SmallHeat's to CheckCoil with no notification
    and Pump's to CheckPrimed with no notification. *)
Theorem dwell_states_leave_by_timeout :
  transitions_from (setup power_on) wait_state =
    [mkTransition wait_state (After 6000) check_pool_state None] /\
  transitions_from (setup power_on) heat_state =
    [mkTransition heat_state (After 12000) check_coil_state
                  (Some makeGoodBeep)] /\
  transitions_from (setup power_on) small_heat_state =
    [mkTransition small_heat_state (After 6000) check_coil_state None] /\
  transitions_from (setup power_on) pump_state =
    [mkTransition pump_state (After 2000) check_primed_state None] /\
  (forall s, dwell_state s = true ->
     event_transitions_from (setup power_on) s = [] /\
     exists t, transitions_from (setup power_on) s = [t] /\
               is_timed t = true /\
               (s = heat_state ->
                  notification_of (on_transition t) = SUCCESS) /\
               (s <> heat_state ->
                  notification_of (on_transition t) = NONE)).
Proof.
  repeat split; try reflexivity.
  - destruct s; simpl in H; try discriminate; reflexivity.
  - destruct s; simpl in H; try discriminate;
      eexists; (split; [reflexivity|]);
      repeat split; try reflexivity; intros; congruence.
Qed.

(** C7, as stated, fails: CheckPool has two event transitions. *)
Lemma check_pool_has_two_event_transitions :
  outgoing_event check_pool_state =
    [ mkTransition check_pool_state (OnEvent POOL_HEATED) wait_state
                   (Some makeGoodBeep);
      mkTransition check_pool_state (OnEvent POOL_NOT_HEATED) heat_state
                   (Some makeGoodBeep) ] /\
  ~ (forall s, (List.length (outgoing_event s) <= 1)%nat).
Proof.
  split; [reflexivity|].
  intros H. specialize (H check_pool_state). vm_compute in H. lia.
Qed.

(** C7, amended: for every state and every event at most one transition
    is registered for that state and event, and for every state at most
    one timed transition is registered. *)
Theorem one_transition_per_state_and_trigger :
  forall s : State,
    (forall ev : Event, (List.length (outgoing_on s ev) <= 1)%nat) /\
    (List.length (outgoing_timed s) <= 1)%nat.
Proof.
  intros s; split; [intros ev; destruct s, ev|destruct s];
    vm_compute; lia.
Qed.

(** ** The dial *)

Lemma read_setpoint_formula (raw : Z) :
  0 <= raw <= 1023 -> read_setpoint raw = 50 + (40 * (1023 - raw)) / 1023.
Proof.
  intros H. unfold read_setpoint, Arduino.map, int_of_long.
  unfold long_add, long_div, long_mul, long_sub.
  rewrite (long_small (raw - 1023)) by lia.
  rewrite (long_small (90 - 50)) by lia.
  rewrite (long_small (0 - 1023)) by lia.
  rewrite (long_small ((raw - 1023) * (90 - 50))) by lia.
  replace ((raw - 1023) * (90 - 50)) with (- (40 * (1023 - raw))) by lia.
  change (0 - 1023) with (Z.opp 1023).
  rewrite Z.quot_opp_opp by lia.
  rewrite Z.quot_div_nonneg by lia.
  assert (Hq : 0 <= 40 * (1023 - raw) / 1023 <= 40).
  { split.
    - apply Z.div_pos; lia.
    - apply Z.div_le_upper_bound; lia. }
  rewrite (long_small (40 * (1023 - raw) / 1023)) by lia.
  rewrite long_small by lia.
  rewrite int_small by lia. lia.
Qed.

(** C8: for every raw dial reading between 0 and 1023 the pool setpoint
    lies between 50 and 90, is the linear image of the reading (rounded
    down to a whole degree), and runs the other way round: 1023 gives
    50, 0 gives 90, and a larger reading never gives a larger
    setpoint. *)
Theorem read_setpoint_range (raw : Z) (H : 0 <= raw <= 1023) :
  50 <= read_setpoint raw <= 90 /\
  read_setpoint raw = 50 + (40 * (1023 - raw)) / 1023 /\
  read_setpoint 1023 = 50 /\
  read_setpoint 0 = 90 /\
  (forall raw', raw <= raw' <= 1023 ->
     read_setpoint raw' <= read_setpoint raw).
Proof.
  assert (Hq : 0 <= 40 * (1023 - raw) / 1023 <= 40).
  { split.
    - apply Z.div_pos; lia.
    - apply Z.div_le_upper_bound; lia. }
  repeat split; try reflexivity;
    try (rewrite read_setpoint_formula by lia; lia).
  intros raw' H'.
  rewrite !read_setpoint_formula by lia.
  apply Z.add_le_mono_l, Z.div_le_mono; lia.
Qed.

Lemma read_setpoint_range_witness :
  0 <= 512 <= 1023 /\ 50 <= read_setpoint 512 <= 90.
Proof.
  split; [lia|].
  exact (proj1 (read_setpoint_range 512 ltac:(lia))).
Defined.

(** ** Rounding of the sensor readings *)

Lemma trunc_floor (q : Q) :
  (0 <= q)%Q -> trunc q = Qfloor q.
Proof.
  destruct q as [n d]. unfold Qle, trunc, Qfloor. simpl. intros H.
  apply Z.quot_div_nonneg; lia.
Qed.

Lemma half_le_Qabs (x : Q) :
  ((1 # 2) <= x \/ x <= - (1 # 2))%Q -> ((1 # 2) <= Qabs x)%Q.
Proof.
  intros [H|H].
  - apply Qle_trans with x; [exact H|apply Qle_Qabs].
  - rewrite <- Qabs_opp. apply Qle_trans with (- x)%Q; [lra|apply Qle_Qabs].
Qed.

(** From one half below zero upwards the reading is rounded to a
    nearest integer. *)
Lemma read_temp_nearest (r : Q) :
  (- (1 # 2) <= r)%Q -> nearest r (read_temp r).
Proof.
  intros Hr k. unfold read_temp.
  rewrite trunc_floor by lra.
  set (n := Qfloor (r + (1 # 2))).
  destruct (Z.eq_dec k n) as [->|Hne]; [apply Qle_refl|].
  pose proof (Qfloor_le (r + (1 # 2))) as Hlo.
  pose proof (Qlt_floor (r + (1 # 2))) as Hhi.
  fold n in Hlo, Hhi.
  rewrite inject_Z_plus in Hhi. change (inject_Z 1) with 1%Q in Hhi.
  apply Qle_trans with (1 # 2)%Q.
  - apply Qabs_Qle_condition. split; lra.
  - apply half_le_Qabs.
    assert (Hk : (k + 1 <= n \/ n + 1 <= k)%Z) by lia.
    destruct Hk as [Hk|Hk]; rewrite Zle_Qle, inject_Z_plus in Hk;
      change (inject_Z 1) with 1%Q in Hk; [right|left]; lra.
Qed.

(** C9 at a negative reading: the disconnected-sensor value -196.6 is
    delivered as -196, while its nearest integer is -197. *)
Theorem read_temp_negative_not_nearest :
  read_temp disconnected_F = (-196)%Z /\
  nearest disconnected_F (-197)%Z /\
  ~ nearest disconnected_F (read_temp disconnected_F).
Proof.
  split; [reflexivity|split].
  - intros k. unfold disconnected_F.
    destruct (Z.eq_dec k (-197)) as [->|Hne]; [apply Qle_refl|].
    apply Qle_trans with (1 # 2)%Q; [vm_compute; discriminate|].
    apply half_le_Qabs.
    assert (Hk : (k <= -198 \/ -196 <= k)%Z) by lia.
    destruct Hk as [Hk|Hk]; rewrite Zle_Qle in Hk;
      [change (inject_Z (-198)) with (-198 # 1)%Q in Hk; right
      |change (inject_Z (-196)) with (-196 # 1)%Q in Hk; left]; lra.
  - intros H. specialize (H (-197)%Z). vm_compute in H.
    apply H. reflexivity.
Qed.

(** ** Decision states *)

(** The engine of a machine that is in state [s] and holds the table
    built by [setup] is determined up to the time of entry. *)
Lemma fsm_in_state (m : Machine) (s : State) :
  m_current_state (fsm m) = s ->
  m_transitions (fsm m) = m_transitions (fsm (setup power_on)) ->
  fsm m = mkFsm s (m_transitions (fsm (setup power_on)))
                (m_entered (fsm m)).
Proof.
  destruct m as [g [cur tab ent]]. simpl. intros -> ->. reflexivity.
Qed.

(** C3: in a machine that is in CheckPool and holds the table built by
    [setup], the check of the state raises POOL_HEATED exactly when
    poolTemp >= poolSet and POOL_NOT_HEATED otherwise, for all integer
    inputs; on POOL_HEATED the cycle fires the transition to Wait with
    a success notification, and on POOL_NOT_HEATED it fires the
    transition to Heat with a success notification and the label
    becomes HEAT... *)
Theorem check_pool_decides (m : Machine) (g : Globals) (now : Z)
    (Hstate : m_current_state (fsm m) = check_pool_state)
    (Htable : m_transitions (fsm m) = m_transitions (fsm (setup power_on))) :
  on_enter (state_def (m_current_state (fsm m))) = Some check_pool_temp /\
  (raised (m_current_state (fsm m)) g = Some POOL_HEATED <->
     poolTemp g >= poolSet g) /\
  (raised (m_current_state (fsm m)) g = Some POOL_NOT_HEATED <->
     ~ poolTemp g >= poolSet g) /\
  (poolTemp g >= poolSet g ->
     tick_fired now g (fsm m)
       = Some (mkTransition check_pool_state (OnEvent POOL_HEATED)
                            wait_state (Some makeGoodBeep)) /\
     tick_state now g (fsm m) = wait_state /\
     tick_notification now g (fsm m) = SUCCESS) /\
  (~ poolTemp g >= poolSet g ->
     tick_fired now g (fsm m)
       = Some (mkTransition check_pool_state (OnEvent POOL_NOT_HEATED)
                            heat_state (Some makeGoodBeep)) /\
     tick_state now g (fsm m) = heat_state /\
     tick_notification now g (fsm m) = SUCCESS /\
     label (tick_globals now g (fsm m)) = chars "HEAT...").
Proof.
  rewrite (fsm_in_state m check_pool_state Hstate Htable).
  unfold tick_fired, tick_state, tick_notification, tick_globals,
    run_machine, raised.
  cbn [state_def on_enter m_current_state].
  split; [reflexivity|].
  unfold check_pool_temp.
  destruct (Z.geb_spec (poolTemp g) (poolSet g)) as [Hge|Hlt];
    cbn [snd fst]; repeat split;
    try reflexivity; try discriminate; try lia;
    intros; exfalso; lia.
Qed.

(** Scenario 1 of the spec, on the machine [setup] leaves: 70 degrees
    against a setpoint of 80. *)
Lemma check_pool_decides_witness :
  m_current_state (fsm (setup power_on)) = check_pool_state /\
  m_transitions (fsm (setup power_on))
    = m_transitions (fsm (setup power_on)) /\
  raised check_pool_state (with_readings 70 95 80) = Some POOL_NOT_HEATED /\
  tick_state 0 (with_readings 70 95 80) (fsm (setup power_on)) = heat_state /\
  tick_notification 0 (with_readings 70 95 80) (fsm (setup power_on))
    = SUCCESS /\
  label (tick_globals 0 (with_readings 70 95 80) (fsm (setup power_on)))
    = chars "HEAT...".
Proof.
  split; [reflexivity|split; [reflexivity|]].
  destruct (check_pool_decides (setup power_on) (with_readings 70 95 80) 0
              eq_refl eq_refl) as (_ & _ & Hnot & _ & Hheat).
  assert (Hlt : ~ poolTemp (with_readings 70 95 80)
                  >= poolSet (with_readings 70 95 80)).
  { vm_compute. intros H. apply H. reflexivity. }
  split; [apply Hnot; exact Hlt|].
  destruct (Hheat Hlt) as (_ & Hst & Hnote & Hlab).
  split; [exact Hst|split; [exact Hnote|exact Hlab]].
Defined.

(** A machine in state [s] holding the table built by [setup]. *)
Lemma placed_machine (s : State) :
  m_current_state (fsm (mkMachine (globals (setup power_on))
                                  (at_state s 0))) = s /\
  m_transitions (fsm (mkMachine (globals (setup power_on)) (at_state s 0)))
    = m_transitions (fsm (setup power_on)).
Proof. split; reflexivity. Qed.

(** C4: in a machine that is in CheckCoil and holds the table built by
    [setup], the check of the state raises COIL_READY exactly when
    coilTemp >= coilSet and COIL_NOT_READY otherwise, for all integer
    inputs; on COIL_READY the cycle fires the transition to CheckPrimed
    with a success notification, and on COIL_NOT_READY it fires the
    transition to SmallHeat with no notification. *)
Theorem check_coil_decides (m : Machine) (g : Globals) (now : Z)
    (Hstate : m_current_state (fsm m) = check_coil_state)
    (Htable : m_transitions (fsm m) = m_transitions (fsm (setup power_on))) :
  on_enter (state_def (m_current_state (fsm m))) = Some check_coil_temp /\
  (raised (m_current_state (fsm m)) g = Some COIL_READY <->
     coilTemp g >= coilSet g) /\
  (raised (m_current_state (fsm m)) g = Some COIL_NOT_READY <->
     ~ coilTemp g >= coilSet g) /\
  (coilTemp g >= coilSet g ->
     tick_fired now g (fsm m)
       = Some (mkTransition check_coil_state (OnEvent COIL_READY)
                            check_primed_state (Some makeGoodBeep)) /\
     tick_state now g (fsm m) = check_primed_state /\
     tick_notification now g (fsm m) = SUCCESS) /\
  (~ coilTemp g >= coilSet g ->
     tick_fired now g (fsm m)
       = Some (mkTransition check_coil_state (OnEvent COIL_NOT_READY)
                            small_heat_state None) /\
     tick_state now g (fsm m) = small_heat_state /\
     tick_notification now g (fsm m) = NONE).
Proof.
  rewrite (fsm_in_state m check_coil_state Hstate Htable).
  unfold tick_fired, tick_state, tick_notification, tick_globals,
    run_machine, raised.
  cbn [state_def on_enter m_current_state].
  split; [reflexivity|].
  unfold check_coil_temp.
  destruct (Z.geb_spec (coilTemp g) (coilSet g)) as [Hge|Hlt];
    cbn [snd fst]; repeat split;
    try reflexivity; try discriminate; try lia;
    intros; exfalso; lia.
Qed.

(** Scenario 3 of the spec, first half: coil at 95 against 90. *)
Lemma check_coil_decides_witness :
  m_current_state (fsm (mkMachine (globals (setup power_on))
                                  (at_state check_coil_state 0)))
    = check_coil_state /\
  m_transitions (fsm (mkMachine (globals (setup power_on))
                                (at_state check_coil_state 0)))
    = m_transitions (fsm (setup power_on)) /\
  raised check_coil_state (with_readings 70 95 80) = Some COIL_READY /\
  tick_state 0 (with_readings 70 95 80) (at_state check_coil_state 0)
    = check_primed_state /\
  tick_notification 0 (with_readings 70 95 80) (at_state check_coil_state 0)
    = SUCCESS.
Proof.
  destruct (placed_machine check_coil_state) as [Hstate Htable].
  split; [exact Hstate|split; [exact Htable|]].
  destruct (check_coil_decides _ (with_readings 70 95 80) 0 Hstate Htable)
    as (_ & Hready & _ & Hfire & _).
  assert (Hge : coilTemp (with_readings 70 95 80)
                >= coilSet (with_readings 70 95 80)).
  { vm_compute. discriminate. }
  split; [apply Hready; exact Hge|].
  destruct (Hfire Hge) as (_ & Hst & Hnote).
  split; [exact Hst|exact Hnote].
Defined.



(** *** What the engine does with the events

    The event a check raises is dispatched by the engine: a cycle in a
    decision state fires the transition registered for the event
    raised. *)

Lemma decision_cycle (s : State) (g : Globals) (now entered : Z)
    (ev : Event) (t : Transition) :
  raised s g = Some ev -> outgoing_on s ev = [t] ->
  run_machine now g (at_state s entered)
    = (make_transition now t g (at_state s entered), Some t).
Proof.
  intros Hev Hout. unfold run_machine, find_event.
  cbn [at_state m_current_state m_transitions]. rewrite Hev.
  unfold outgoing_on in Hout.
  destruct (find _ registered) as [t'|] eqn:Hfind.
  - assert (Hin : In t' [t]).
    { rewrite <- Hout. apply filter_In. apply find_some in Hfind. exact Hfind. }
    destruct Hin as [->|[]]. reflexivity.
  - exfalso.
    assert (Hin : In t (filter (fun t0 => leaves s t0 && is_event ev t0)
                               registered))
      by (rewrite Hout; now left).
    apply filter_In in Hin. destruct Hin as [Hin Hp].
    apply (find_none _ _ Hfind) in Hin. congruence.
Qed.

(** Scenario 1 of the spec: 70 degrees against a setpoint of 80. *)
Example scenario_1 :
  snd (check_pool_temp (with_readings 70 95 80)) = Some POOL_NOT_HEATED /\
  tick_state 0 (with_readings 70 95 80) (at_state check_pool_state 0)
    = heat_state /\
  tick_notification 0 (with_readings 70 95 80) (at_state check_pool_state 0)
    = SUCCESS /\
  label (tick_globals 0 (with_readings 70 95 80)
           (at_state check_pool_state 0)) = chars "HEAT...".
Proof. repeat split. Qed.

(** Scenario 3 of the spec: coil ready at 95 against 90, then not primed
    against a pool at 70. *)
Example scenario_3 :
  tick_state 0 (with_readings 70 95 80) (at_state check_coil_state 0)
    = check_primed_state /\
  tick_state 0 (with_readings 70 95 80) (at_state check_primed_state 0)
    = pump_state /\
  pumpState (tick_globals 0 (with_readings 70 95 80)
               (at_state check_primed_state 0)) = HIGH /\
  tick_notification 0 (with_readings 70 95 80)
                    (at_state check_primed_state 0) = SUCCESS.
Proof. repeat split. Qed.

(** ** Executions of the machine *)

Lemma State_eqb_eq (a b : State) : State_eqb a b = true -> a = b.
Proof. destruct a, b; simpl; congruence. Qed.

(** A cycle either leaves everything as it is or fires one registered
    transition out of the current state. *)
Lemma run_machine_cases (now : Z) (g : Globals) (f : Fsm) :
  run_machine now g f = (g, f, None) \/
  exists t, In t (m_transitions f) /\
            state_from t = m_current_state f /\
            run_machine now g f = (make_transition now t g f, Some t).
Proof.
  assert (Htimed : check_timed_transitions now g f = (g, f, None) \/
    exists t, In t (m_transitions f) /\
              state_from t = m_current_state f /\
              check_timed_transitions now g f
                = (make_transition now t g f, Some t)).
  { unfold check_timed_transitions, find_timed.
    destruct (find _ _) as [t|] eqn:Hfind; [|now left].
    destruct (expired now f t); [|now left].
    apply find_some in Hfind. destruct Hfind as [Hin Hp].
    apply andb_prop in Hp. destruct Hp as [Hfrom _].
    right. exists t. repeat split; auto using State_eqb_eq. }
  unfold run_machine.
  destruct (raised _ g) as [ev|]; [|exact Htimed].
  unfold find_event.
  destruct (find _ _) as [t|] eqn:Hfind; [|exact Htimed].
  apply find_some in Hfind. destruct Hfind as [Hin Hp].
  apply andb_prop in Hp. destruct Hp as [Hfrom _].
  right. exists t. repeat split; auto using State_eqb_eq.
Qed.

Lemma strcpy_length (dst : list ascii) (src : string) :
  fits dst src -> List.length (strcpy dst src) = List.length dst.
Proof.
  unfold fits, strcpy. intros H.
  rewrite length_app. cbn [List.length]. rewrite length_skipn. lia.
Qed.

Lemma invariant_setup : invariant (globals (setup power_on)) (fsm (setup power_on)).
Proof.
  constructor; try reflexivity.
  - left. reflexivity.
  - simpl. split; discriminate.
  - simpl. split; discriminate.
  - right. reflexivity.
Qed.

(** A string of seven characters fits a buffer of [STATUS_SIZE]. *)
Lemma seven_fits (buf : list ascii) (src : string) :
  List.length buf = STATUS_SIZE -> List.length (chars src) = 7%nat ->
  fits buf src.
Proof. unfold fits, STATUS_SIZE. intros -> ->. lia. Qed.

(** The three checks leave the globals alone. *)
Lemma check_pool_temp_globals (g : Globals) : fst (check_pool_temp g) = g.
Proof. unfold check_pool_temp. destruct (_ >=? _); reflexivity. Qed.

Lemma check_coil_temp_globals (g : Globals) : fst (check_coil_temp g) = g.
Proof. unfold check_coil_temp. destruct (_ >=? _); reflexivity. Qed.

Lemma check_coil_primed_globals (g : Globals) : fst (check_coil_primed g) = g.
Proof. unfold check_coil_primed. destruct (_ <=? _); reflexivity. Qed.

Lemma HIGH_not_LOW : LOW <> HIGH.
Proof. discriminate. Qed.

Ltac iff_by_state Hpump Hfrom :=
  rewrite <- Hfrom in Hpump; split; intros Heq;
  solve [ reflexivity
        | discriminate
        | apply Hpump in Heq; discriminate
        | exfalso; exact (HIGH_not_LOW Heq) ].

Lemma invariant_make_transition (now : Z) (t : Transition) (g : Globals)
    (f : Fsm) :
  invariant g f -> In t registered -> state_from t = m_current_state f ->
  invariant (fst (make_transition now t g f)) (snd (make_transition now t g f)).
Proof.
  intros [Htab Hsize Hlab Hpump Hled Hlev] Hin Hfrom.
  unfold registered in Hin. simpl in Hin.
  decompose [or] Hin; clear Hin; try contradiction; subst t;
    cbn [state_from] in Hfrom.
  all: unfold make_transition;
    cbn [state_from state_to state_def on_exit on_enter run_handler fst snd].
  all: rewrite ?check_pool_temp_globals, ?check_coil_temp_globals,
         ?check_coil_primed_globals.
  all: constructor;
    cbn [m_transitions m_current_state enter_wait_state enter_heat_state
         enter_pump_state exit_pump_state fst set_status set_outputs
         statusBuffer pumpState ledState label];
    try exact Htab; try exact Hlab;
    try (rewrite strcpy_length;
         [exact Hsize|apply seven_fits; [exact Hsize|reflexivity]]);
    try exact Hsize; try exact Hlev;
    try (left; reflexivity); try (right; reflexivity);
    try (simpl; tauto);
    try iff_by_state Hpump Hfrom; try iff_by_state Hled Hfrom.
Qed.

Lemma invariant_refreshed (i : Inputs) (g : Globals) (f : Fsm) :
  invariant g f -> invariant (refreshed i g) f.
Proof. intros [? ? ? ? ? ?]. constructor; assumption. Qed.

(** A pass of [loop] stores the readings and then either leaves the
    machine as it is or fires one registered transition out of the
    current state. *)
Lemma loop_cases (i : Inputs) (m : Machine) :
  (fst (loop i m) = mkMachine (refreshed i (globals m)) (fsm m) /\
   fired (snd (loop i m)) = None) \/
  exists t, In t (m_transitions (fsm m)) /\
            state_from t = m_current_state (fsm m) /\
            fired (snd (loop i m)) = Some t /\
            fst (loop i m) =
              mkMachine
                (fst (make_transition (millis i) t
                        (refreshed i (globals m)) (fsm m)))
                (snd (make_transition (millis i) t
                        (refreshed i (globals m)) (fsm m))).
Proof.
  unfold loop.
  destruct (run_machine_cases (millis i) (refreshed i (globals m)) (fsm m))
    as [Hrun|(t & Hin & Hfrom & Hrun)]; rewrite Hrun.
  - left. split; reflexivity.
  - right. exists t. destruct (make_transition _ _ _ _). auto.
Qed.

Lemma invariant_loop (i : Inputs) (m : Machine) :
  invariant (globals m) (fsm m) ->
  invariant (globals (fst (loop i m))) (fsm (fst (loop i m))).
Proof.
  intros Hinv.
  destruct (loop_cases i m) as [[-> _]|(t & Hin & Hfrom & _ & ->)];
    cbn [globals fsm].
  - now apply invariant_refreshed.
  - apply invariant_make_transition;
      [now apply invariant_refreshed| |exact Hfrom].
    rewrite <- (inv_table _ _ Hinv). exact Hin.
Qed.

(** Along every execution the invariant holds, only registered
    transitions have fired, and the label is empty as long as no dwell
    state has been entered. *)
Lemma run_invariant (tr : list Transition) (m : Machine) :
  run tr m ->
  invariant (globals m) (fsm m) /\
  (forall t, In t tr -> In t registered) /\
  (forallb enters_decision tr = true -> label (globals m) = []).
Proof.
  induction 1 as [|tr m i Hrun (Hinv & Htr & Hlab)].
  - split; [exact invariant_setup|split; [contradiction|reflexivity]].
  - split; [now apply invariant_loop|].
    unfold history.
    destruct (loop_cases i m) as [[-> ->]|(t & Hin & Hfrom & -> & ->)].
    + split; [exact Htr|exact Hlab].
    + rewrite (inv_table _ _ Hinv) in Hin.
      split.
      * intros t' [<-|Hin']; auto.
      * cbn [app forallb globals]. intros Hall.
        apply andb_prop in Hall. destruct Hall as [Hdec Hall].
        specialize (Hlab Hall).
        clear - Hin Hdec Hlab.
        unfold registered in Hin. simpl in Hin.
        decompose [or] Hin; clear Hin; try contradiction; subst t;
          try discriminate Hdec;
          unfold make_transition;
          cbn [state_from state_to state_def on_exit on_enter
               run_handler fst snd];
          rewrite ?check_pool_temp_globals, ?check_coil_temp_globals,
            ?check_coil_primed_globals;
          exact Hlab.
Qed.

(** ** A run through the heating cycle *)

Lemma reachable_after (passes : list Inputs) : reachable (after passes).
Proof.
  unfold after.
  assert (Hgen : forall m, reachable m ->
            reachable (fold_left (fun m i => fst (loop i m)) passes m)).
  { induction passes as [|i passes IH]; intros m Hm; [exact Hm|].
    simpl. apply IH. destruct Hm as [tr Hrun].
    eexists. apply run_loop. exact Hrun. }
  apply Hgen. exists []. constructor.
Qed.

Example heating_reaches_pump :
  List.map (fun n => m_current_state (fsm (after (firstn n heating_passes))))
           [0; 1; 2; 3; 4]%nat
    = [check_pool_state; heat_state; check_coil_state; check_primed_state;
       pump_state] /\
  pumpState (globals (after heating_passes)) = HIGH /\
  label (globals (after heating_passes)) = chars "PUMP...".
Proof. repeat split. Qed.

Example pumping_ends_in_wait :
  m_current_state (fsm (after (firstn 5 pumped_passes))) = check_primed_state /\
  pumpState (globals (after (firstn 5 pumped_passes))) = LOW /\
  m_current_state (fsm (after pumped_passes)) = wait_state /\
  label (globals (after pumped_passes)) = chars "WAIT...".
Proof. repeat split. Qed.

(** ** The pump *)

(** C1: the entry action of Pump sets the pump and the LED high, its
    exit action sets them low, no other handler and no other step of
    [loop] writes them, and in every reachable state pumpState is high
    exactly when the current state is Pump (and low otherwise); a pass
    of [loop] that leaves Pump ends with pumpState low, and the level
    written to the pump pin is high exactly when the pass starts in
    Pump. *)
Theorem pump_high_iff_pump_state (m : Machine) (i : Inputs)
    (Hreach : reachable m) :
  (forall g, pumpState (fst (enter_pump_state g)) = HIGH /\
             ledState (fst (enter_pump_state g)) = HIGH) /\
  (forall g, pumpState (fst (exit_pump_state g)) = LOW /\
             ledState (fst (exit_pump_state g)) = LOW) /\
  (keeps_pump check_pool_temp /\ keeps_pump enter_wait_state /\
   keeps_pump enter_heat_state /\ keeps_pump check_coil_temp /\
   keeps_pump check_coil_primed) /\
  pumpState (refreshed i (globals m)) = pumpState (globals m) /\
  (pumpState (globals m) = HIGH <-> m_current_state (fsm m) = pump_state) /\
  (pumpState (globals m) = LOW <-> m_current_state (fsm m) <> pump_state) /\
  (m_current_state (fsm m) = pump_state ->
   m_current_state (fsm (fst (loop i m))) <> pump_state ->
   pumpState (globals (fst (loop i m))) = LOW) /\
  (pump_pin (snd (loop i m)) = HIGH <->
   m_current_state (fsm m) = pump_state).
Proof.
  destruct Hreach as [tr Hrun].
  destruct (run_invariant tr m Hrun) as [Hinv _].
  pose proof (invariant_loop i m Hinv) as Hnext.
  destruct Hinv as [_ _ _ Hpump _ Hlev].
  destruct Hnext as [_ _ _ Hpump' _ Hlev'].
  assert (Hpin : pump_pin (snd (loop i m)) = pumpState (globals m)).
  { unfold loop. destruct (run_machine _ _ _) as [[g' f'] t]. reflexivity. }
  repeat split;
    rewrite ?check_pool_temp_globals, ?check_coil_temp_globals,
      ?check_coil_primed_globals; try reflexivity.
  - apply Hpump.
  - apply Hpump.
  - intros Hlow Hst. apply Hpump in Hst.
    rewrite Hst in Hlow. exact (HIGH_not_LOW (eq_sym Hlow)).
  - intros Hst. destruct Hlev as [Hhi|Hlo]; [|exact Hlo].
    apply Hpump in Hhi. contradiction.
  - intros _ Hst. destruct Hlev' as [Hhi|Hlo]; [|exact Hlo].
    apply Hpump' in Hhi. contradiction.
  - rewrite Hpin. apply Hpump.
  - rewrite Hpin. apply Hpump.
Qed.

Lemma pump_high_iff_pump_state_witness :
  reachable (after heating_passes) /\
  m_current_state (fsm (after heating_passes)) = pump_state /\
  pumpState (globals (after heating_passes)) = HIGH.
Proof.
  split; [apply reachable_after|].
  destruct (pump_high_iff_pump_state (after heating_passes) cold_start
              (reachable_after heating_passes)) as (_ & _ & _ & _ & Hiff & _).
  split; [reflexivity|apply Hiff; reflexivity].
Defined.

(** ** Notifications *)

Lemma registered_callbacks (t : Transition) :
  In t registered ->
  on_transition t = None \/ on_transition t = Some makeGoodBeep.
Proof.
  unfold registered. simpl. intros Hin.
  decompose [or] Hin; try contradiction; subst t; simpl; auto.
Qed.

(** C6: the failure chime is attached to no registered transition, no
    transition fired in an execution carries it, and every pass of
    [loop] yields either no notification or a success notification. *)
Theorem failure_never_raised (tr : list Transition) (m : Machine)
    (i : Inputs) (Hrun : run tr m) :
  (forall t, In t registered -> on_transition t <> Some makeBadBeep) /\
  m_transitions (fsm m) = registered /\
  (forall t, In t tr -> notification_of (on_transition t) <> FAILURE) /\
  (notification (snd (loop i m)) = NONE \/
   notification (snd (loop i m)) = SUCCESS).
Proof.
  destruct (run_invariant tr m Hrun) as (Hinv & Htr & _).
  repeat split.
  - intros t Hin. destruct (registered_callbacks t Hin) as [-> | ->];
      discriminate.
  - apply (inv_table _ _ Hinv).
  - intros t Hin. destruct (registered_callbacks t (Htr t Hin)) as [-> | ->];
      discriminate.
  - unfold notification.
    destruct (loop_cases i m) as [[_ ->]|(t & Hin & _ & -> & _)];
      [now left|].
    rewrite (inv_table _ _ Hinv) in Hin.
    destruct (registered_callbacks t Hin) as [-> | ->]; auto.
Qed.

Lemma failure_never_raised_witness :
  run [] (setup power_on) /\
  notification (snd (loop cold_start (setup power_on))) = SUCCESS /\
  (notification (snd (loop cold_start (setup power_on))) = NONE \/
   notification (snd (loop cold_start (setup power_on))) = SUCCESS).
Proof.
  split; [exact run_setup|split; [reflexivity|]].
  destruct (failure_never_raised [] (setup power_on) cold_start run_setup)
    as (_ & _ & _ & Hnote).
  exact Hnote.
Defined.

(** ** The status buffer *)

Lemma label_length (l : list ascii) :
  In l labels -> (List.length l <= 7)%nat.
Proof.
  unfold labels. simpl. intros Hin.
  decompose [or] Hin; try contradiction; subst l; simpl; lia.
Qed.

(** Every handler keeps the buffer at its size and the label among the
    four. *)
Lemma handler_buffer (h : Handler) (g : Globals) :
  In h handlers ->
  List.length (statusBuffer g) = STATUS_SIZE /\ In (label g) labels ->
  List.length (statusBuffer (fst (h g))) = STATUS_SIZE /\
  In (label (fst (h g))) labels.
Proof.
  intros Hin [Hsize Hlab]. simpl in Hin.
  decompose [or] Hin; try contradiction; subst h;
    rewrite ?check_pool_temp_globals, ?check_coil_temp_globals,
      ?check_coil_primed_globals; try (split; assumption);
    cbn [enter_wait_state enter_heat_state enter_pump_state
         exit_pump_state fst set_status set_outputs statusBuffer label];
    try (split; assumption);
    (split;
     [rewrite strcpy_length;
      [exact Hsize|apply seven_fits; [exact Hsize|reflexivity]]
     |simpl; tauto]).
Qed.

Lemma touched_buffer (g : Globals) :
  touched g ->
  List.length (statusBuffer g) = STATUS_SIZE /\ In (label g) labels.
Proof.
  induction 1 as [|h g Hin _ IH|pool coil set g _ IH].
  - split; [reflexivity|left; reflexivity].
  - now apply handler_buffer.
  - exact IH.
Qed.

(** C10: the three strings stored have seven characters; whatever
    handlers have run, the buffer still has its eight bytes, so each of
    the three copies fits, and the label read from it is empty or one
    of the three and has at most seven characters; after [setup] the
    label is empty, and neither the handler of a decision state nor any
    exit handler writes the buffer. *)
Theorem status_label_fits (g : Globals) (Hg : touched g) :
  (List.length (chars "WAIT...") = 7%nat /\
   List.length (chars "HEAT...") = 7%nat /\
   List.length (chars "PUMP...") = 7%nat) /\
  (fits (statusBuffer g) "WAIT..." /\
   fits (statusBuffer g) "HEAT..." /\
   fits (statusBuffer g) "PUMP...") /\
  List.length (statusBuffer g) = STATUS_SIZE /\
  In (label g) labels /\
  (List.length (label g) <= 7)%nat /\
  label (globals (setup power_on)) = [] /\
  (forall s g', decision_state s = true ->
     statusBuffer (run_handler (on_enter (state_def s)) g')
       = statusBuffer g') /\
  (forall s g',
     statusBuffer (run_handler (on_exit (state_def s)) g')
       = statusBuffer g').
Proof.
  destruct (touched_buffer g Hg) as [Hsize Hlab].
  repeat split;
    try reflexivity;
    try (apply seven_fits; [exact Hsize|reflexivity]);
    try assumption.
  - now apply label_length.
  - intros s g' Hs. destruct s; try discriminate Hs; simpl;
      rewrite ?check_pool_temp_globals, ?check_coil_temp_globals,
        ?check_coil_primed_globals; reflexivity.
  - intros s g'. destruct s; reflexivity.
Qed.

Lemma status_label_fits_witness :
  touched (fst (enter_heat_state (globals (setup power_on)))) /\
  label (fst (enter_heat_state (globals (setup power_on)))) = chars "HEAT..." /\
  (List.length (label (fst (enter_heat_state (globals (setup power_on)))))
     <= 7)%nat.
Proof.
  assert (Hg : touched (fst (enter_heat_state (globals (setup power_on))))).
  { apply touched_call; [|exact touched_setup]. simpl. tauto. }
  split; [exact Hg|split; [reflexivity|]].
  destruct (status_label_fits _ Hg) as (_ & _ & _ & _ & Hlen & _).
  exact Hlen.
Defined.

(** *** The buffer along the executions of the engine *)

Lemma touched_run_handler (h : option Handler) (g : Globals) :
  (forall h', h = Some h' -> In h' handlers) ->
  touched g -> touched (run_handler h g).
Proof.
  intros Hh Hg. destruct h as [h'|]; [|exact Hg].
  apply touched_call; [now apply Hh|exact Hg].
Qed.

Lemma state_handlers (s : State) (h : Handler) :
  on_enter (state_def s) = Some h \/ on_exit (state_def s) = Some h ->
  In h handlers.
Proof.
  destruct s; simpl; intros [H|H]; inversion H; subst; simpl; tauto.
Qed.

Lemma run_touched (tr : list Transition) (m : Machine) :
  run tr m -> touched (globals m).
Proof.
  induction 1 as [|tr m i _ IH]; [exact touched_setup|].
  destruct (loop_cases i m) as [[-> _]|(t & _ & _ & _ & ->)];
    cbn [globals].
  - now apply touched_refresh.
  - unfold make_transition. cbn [fst].
    apply touched_run_handler; [eauto using state_handlers|].
    apply touched_run_handler; [eauto using state_handlers|].
    unfold refreshed. now apply touched_refresh.
Qed.

(** What a pass of [loop] draws on the status line has at most seven
    characters, and it is empty as long as no dwell state has been
    entered. *)
Lemma status_line_length (tr : list Transition) (m : Machine) (i : Inputs) :
  run tr m ->
  (List.length (status_line (snd (loop i m))) <= 7)%nat /\
  (forallb enters_decision tr = true -> status_line (snd (loop i m)) = []).
Proof.
  intros Hrun.
  assert (Hline : status_line (snd (loop i m)) = label (globals m)).
  { unfold loop. destruct (run_machine _ _ _) as [[g' f'] t]. reflexivity. }
  rewrite Hline. split.
  - apply label_length. apply touched_buffer. eapply run_touched; eauto.
  - apply (run_invariant tr m Hrun).
Qed.


(** * Further properties of the sketch *)

(** ** What the handlers leave alone *)

Lemma touched_constants (g : Globals) :
  touched g ->
  coilSet g = 90 /\ ledState g = pumpState g /\
  (pumpState g = HIGH \/ pumpState g = LOW).
Proof.
  induction 1 as [|h g Hin _ IH|pool coil set g _ IH].
  - repeat split. right. reflexivity.
  - simpl in Hin.
    decompose [or] Hin; try contradiction; subst h;
      rewrite ?check_pool_temp_globals, ?check_coil_temp_globals,
        ?check_coil_primed_globals; try exact IH;
      destruct IH as (Hset & Hled & Hlev); simpl;
      repeat split; auto.
  - exact IH.
Qed.

(** X1: after [setup] the coil setpoint stays at 90 whatever handlers
    run and whatever readings are stored, so the coil check raises
    COIL_READY exactly when the coil is at 90 degrees or more. *)
Theorem coil_setpoint_fixed (g : Globals) (Hg : touched g) :
  coilSet g = 90 /\
  (snd (check_coil_temp g) = Some COIL_READY <-> 90 <= coilTemp g) /\
  (snd (check_coil_temp g) = Some COIL_NOT_READY <-> coilTemp g < 90).
Proof.
  destruct (touched_constants g Hg) as (Hset & _).
  split; [exact Hset|].
  unfold check_coil_temp. rewrite Hset.
  destruct (Z.geb_spec (coilTemp g) 90); cbn [snd];
    repeat split; intros; try reflexivity; try discriminate; lia.
Qed.

Lemma coil_setpoint_fixed_witness :
  touched (with_readings 70 95 80) /\
  snd (check_coil_temp (with_readings 70 95 80)) = Some COIL_READY.
Proof.
  assert (Hg : touched (with_readings 70 95 80)).
  { apply touched_refresh. exact touched_setup. }
  split; [exact Hg|].
  destruct (coil_setpoint_fixed _ Hg) as (_ & Hready & _).
  apply Hready. vm_compute. discriminate.
Defined.

(** X2: the LED always mirrors the pump: whatever handlers have run,
    ledState equals pumpState and is one of the two levels, so a pass
    of [loop] writes the same level to the LED pin and to the pump
    pin. *)
Theorem led_mirrors_pump (m : Machine) (i : Inputs)
    (Hg : touched (globals m)) :
  ledState (globals m) = pumpState (globals m) /\
  (pumpState (globals m) = HIGH \/ pumpState (globals m) = LOW) /\
  led_pin (snd (loop i m)) = pump_pin (snd (loop i m)) /\
  (pump_pin (snd (loop i m)) = HIGH \/ pump_pin (snd (loop i m)) = LOW).
Proof.
  destruct (touched_constants _ Hg) as (_ & Hled & Hlev).
  assert (Hpins : led_pin (snd (loop i m)) = ledState (globals m) /\
                  pump_pin (snd (loop i m)) = pumpState (globals m)).
  { unfold loop. destruct (run_machine _ _ _) as [[g' f'] t].
    split; reflexivity. }
  destruct Hpins as [-> ->]. auto.
Qed.

Lemma led_mirrors_pump_witness :
  touched (globals (after heating_passes)) /\
  led_pin (snd (loop cold_start (after heating_passes))) = HIGH /\
  led_pin (snd (loop cold_start (after heating_passes)))
    = pump_pin (snd (loop cold_start (after heating_passes))).
Proof.
  assert (Hg : touched (globals (after heating_passes))).
  { destruct (reachable_after heating_passes) as [tr Hrun].
    exact (run_touched tr _ Hrun). }
  split; [exact Hg|split; [reflexivity|]].
  destruct (led_mirrors_pump (after heating_passes) cold_start Hg)
    as (_ & _ & Hpins & _).
  exact Hpins.
Defined.

(** ** Events and the table *)

(** X3: the event codes are pairwise different; the handler of a
    decision state always raises an event, and the table the machine
    holds after [setup] has exactly one transition out of that state
    for the event raised; the handlers of a dwell state raise none. *)
Theorem raised_events_are_registered (s : State) (g : Globals) :
  (forall e e', event_code e = event_code e' -> e = e') /\
  (decision_state s = true ->
     exists h ev t,
       on_enter (state_def s) = Some h /\
       snd (h g) = Some ev /\
       transitions_on (setup power_on) s ev = [t]) /\
  (dwell_state s = true ->
     forall h,
       on_enter (state_def s) = Some h \/ on_exit (state_def s) = Some h ->
       snd (h g) = None).
Proof.
  split; [|split].
  - intros e e'. destruct e, e'; simpl; intros H; try reflexivity;
      discriminate H.
  - intros Hs. destruct s; try discriminate Hs; simpl.
    + exists check_pool_temp. unfold check_pool_temp.
      destruct (_ >=? _); do 2 eexists; repeat split; reflexivity.
    + exists check_coil_temp. unfold check_coil_temp.
      destruct (_ >=? _); do 2 eexists; repeat split; reflexivity.
    + exists check_coil_primed. unfold check_coil_primed.
      destruct (_ <=? _); do 2 eexists; repeat split; reflexivity.
  - intros Hs h. destruct s; try discriminate Hs; simpl;
      intros [H|H]; inversion H; reflexivity.
Qed.

Lemma path_trans (table : list Transition) (a b c : State) :
  path table a b -> path table b c -> path table a c.
Proof.
  induction 1 as [|t s Hin _ IH]; [auto|].
  intros Hc. eapply path_step; eauto.
Qed.

Lemma path_edge (table : list Transition) (t : Transition) :
  In t table -> path table (state_from t) (state_to t).
Proof. intros Hin. apply path_step; [exact Hin|apply path_here]. Qed.

(** The walk along the [n]-th transition registered by [setup]. *)
Ltac edge n :=
  match eval cbv in (nth_error (m_transitions (fsm (setup power_on))) n) with
  | Some ?t =>
      exact (path_edge (m_transitions (fsm (setup power_on))) t
                       ltac:(simpl; tauto))
  end.

Lemma path_from_check_pool (s : State) :
  path (m_transitions (fsm (setup power_on))) check_pool_state s.
Proof.
  set (table := m_transitions (fsm (setup power_on))).
  assert (Hheat : path table check_pool_state heat_state) by edge 2%nat.
  assert (Hwait : path table check_pool_state wait_state) by edge 0%nat.
  assert (Hcoil : path table check_pool_state check_coil_state).
  { apply path_trans with heat_state; [exact Hheat|edge 3%nat]. }
  assert (Hprimed : path table check_pool_state check_primed_state).
  { apply path_trans with check_coil_state; [exact Hcoil|edge 6%nat]. }
  destruct s; auto using path_here.
  - apply path_trans with check_coil_state; [exact Hcoil|edge 4%nat].
  - apply path_trans with check_primed_state; [exact Hprimed|edge 7%nat].
Qed.

Lemma path_to_check_pool (s : State) :
  path (m_transitions (fsm (setup power_on))) s check_pool_state.
Proof.
  set (table := m_transitions (fsm (setup power_on))).
  assert (Hwait : path table wait_state check_pool_state) by edge 1%nat.
  assert (Hprimed : path table check_primed_state check_pool_state).
  { apply path_trans with wait_state; [edge 9%nat|exact Hwait]. }
  assert (Hcoil : path table check_coil_state check_pool_state).
  { apply path_trans with check_primed_state; [edge 6%nat|exact Hprimed]. }
  destruct s; auto using path_here.
  - apply path_trans with check_coil_state; [edge 3%nat|exact Hcoil].
  - apply path_trans with check_coil_state; [edge 5%nat|exact Hcoil].
  - apply path_trans with check_primed_state; [edge 8%nat|exact Hprimed].
Qed.

(** X4: the table the machine holds after [setup] connects every state
    to every other: from any state a sequence of its transitions leads
    to any state, so no state is a dead end and none is out of reach;
    in particular every state has a transition out and a transition
    in. *)
Theorem every_state_leads_everywhere (a b : State) :
  path (m_transitions (fsm (setup power_on))) a b /\
  transitions_from (setup power_on) a <> [] /\
  (exists t, In t (m_transitions (fsm (setup power_on))) /\
             state_to t = b).
Proof.
  split; [|split].
  - apply path_trans with check_pool_state;
      [apply path_to_check_pool|apply path_from_check_pool].
  - destruct a; discriminate.
  - destruct b; eexists (mkTransition _ _ _ _);
      (split; [|reflexivity]); simpl;
      repeat (first [left; reflexivity|right]).
Qed.

(** X5: the pump is started by one registration only, the one out of
    CheckPrimed awaiting COIL_NOT_PRIMED, and that event is raised by
    no handler but the priming check, and by it only when coilTemp
    exceeds poolTemp + 2 as computed in [int]. *)
Theorem pump_starts_only_when_not_primed (t : Transition) (h : Handler)
    (g : Globals) :
  (In t registered -> state_to t = pump_state ->
     t = mkTransition check_primed_state (OnEvent COIL_NOT_PRIMED)
                      pump_state (Some makeGoodBeep)) /\
  (In h handlers -> snd (h g) = Some COIL_NOT_PRIMED ->
     fst (h g) = g /\ int_add (poolTemp g) 2 < coilTemp g) /\
  (in_int (poolTemp g) -> poolTemp g + 2 <= INT_MAX ->
   In h handlers -> snd (h g) = Some COIL_NOT_PRIMED ->
     poolTemp g + 2 < coilTemp g).
Proof.
  assert (Hraise : In h handlers -> snd (h g) = Some COIL_NOT_PRIMED ->
            fst (h g) = g /\ int_add (poolTemp g) 2 < coilTemp g).
  { intros Hin. simpl in Hin.
    decompose [or] Hin; try contradiction; subst h;
      try (unfold check_pool_temp; destruct (_ >=? _); discriminate);
      try (unfold check_coil_temp; destruct (_ >=? _); discriminate);
      try discriminate.
    unfold check_coil_primed.
    destruct (Z.leb_spec (coilTemp g) (int_add (poolTemp g) 2));
      [discriminate|]. intros _. split; [reflexivity|assumption]. }
  split; [|split; [exact Hraise|]].
  - unfold registered. simpl. intros Hin Hto.
    decompose [or] Hin; try contradiction; subst t;
      try discriminate Hto; reflexivity.
  - intros Hpool Hsum Hin Hev.
    destruct (Hraise Hin Hev) as [_ Hlt].
    rewrite int_add_exact in Hlt by (unfold in_int in *; lia).
    exact Hlt.
Qed.

(** ** Whole-degree readings *)

(** X7: a reading of a whole number of degrees within the [int] range
    is delivered unchanged when it is zero or more, and one degree too
    high when it is negative. *)
Theorem read_temp_whole_degrees (n : Z) (Hn : in_int n) :
  in_int (read_temp (inject_Z n)) /\
  (0 <= n -> read_temp (inject_Z n) = n) /\
  (n < 0 -> read_temp (inject_Z n) = n + 1).
Proof.
  assert (Hval : (0 <= n -> read_temp (inject_Z n) = n) /\
                 (n < 0 -> read_temp (inject_Z n) = n + 1)).
  { unfold read_temp, trunc, inject_Z, Qplus. simpl.
    replace (n * 2 + 1) with (1 + n * 2) by lia.
    split; intros H.
    - rewrite Z.quot_div_nonneg by lia.
      rewrite Z.div_add by lia. reflexivity.
    - replace (1 + n * 2) with (- (1 + (- n - 1) * 2)) by lia.
      rewrite Z.quot_opp_l by lia.
      rewrite Z.quot_div_nonneg by lia.
      rewrite Z.div_add by lia. simpl. lia. }
  split; [|exact Hval].
  destruct Hval as [Hpos Hneg].
  unfold in_int in *. change INT_MIN with (-32768) in *.
  change INT_MAX with 32767 in *.
  destruct (Z.lt_ge_cases n 0) as [H|H].
  - rewrite (Hneg H). lia.
  - rewrite (Hpos H). lia.
Qed.

Lemma read_temp_whole_degrees_witness :
  in_int (-5) /\ read_temp (inject_Z (-5)) = -4.
Proof.
  assert (Hn : in_int (-5)) by (unfold in_int; vm_compute; split; discriminate).
  split; [exact Hn|].
  destruct (read_temp_whole_degrees (-5) Hn) as (_ & _ & Hneg).
  apply Hneg. reflexivity.
Defined.

(** ** Centring *)

(** X10: for widths that are [int] values of zero or more, a string no
    wider than the display starts at a column that keeps it on the
    display with the right margin equal to the left one or one pixel
    larger; a string wider than the display starts at a column of zero
    or less that cuts off as much on the left as on the right, or one
    pixel less. *)
Theorem calcStart_centres (u8g2 : Display) (str : list ascii)
    (Hstr : 0 <= getStrWidth u8g2 str <= INT_MAX)
    (Hscr : 0 <= getDisplayWidth u8g2 <= INT_MAX) :
  (getStrWidth u8g2 str <= getDisplayWidth u8g2 ->
     0 <= calcStart u8g2 str /\
     calcStart u8g2 str + getStrWidth u8g2 str <= getDisplayWidth u8g2 /\
     0 <= getDisplayWidth u8g2
            - (calcStart u8g2 str + getStrWidth u8g2 str)
            - calcStart u8g2 str <= 1) /\
  (getDisplayWidth u8g2 < getStrWidth u8g2 str ->
     calcStart u8g2 str <= 0 /\
     0 <= (calcStart u8g2 str + getStrWidth u8g2 str
             - getDisplayWidth u8g2)
            - (- calcStart u8g2 str) <= 1).
Proof.
  unfold calcStart, int_div, int_sub.
  set (w := getStrWidth u8g2 str) in *.
  set (W := getDisplayWidth u8g2) in *.
  change INT_MAX with 32767 in *.
  rewrite (int_small (W - w)) by lia.
  pose proof (Z.quot_rem' (W - w) 2) as Hqr.
  split; intros Hcmp.
  - pose proof (Z.rem_bound_pos (W - w) 2 ltac:(lia) ltac:(lia)) as Hrem.
    rewrite int_small by lia. lia.
  - pose proof (Z.rem_bound_pos_neg (W - w) 2 ltac:(lia) ltac:(lia)) as Hrem.
    rewrite int_small by lia. lia.
Qed.

Lemma calcStart_centres_witness :
  0 <= getStrWidth (mkDisplay (fun s => 9 * Z.of_nat (List.length s)) 128)
                   (chars "SOLAR HEATER") <= INT_MAX /\
  0 <= getDisplayWidth
         (mkDisplay (fun s => 9 * Z.of_nat (List.length s)) 128) <= INT_MAX /\
  calcStart (mkDisplay (fun s => 9 * Z.of_nat (List.length s)) 128)
            (chars "SOLAR HEATER") = 10 /\
  0 <= calcStart (mkDisplay (fun s => 9 * Z.of_nat (List.length s)) 128)
                 (chars "SOLAR HEATER").
Proof.
  assert (Hstr : 0 <= getStrWidth
                        (mkDisplay (fun s => 9 * Z.of_nat (List.length s)) 128)
                        (chars "SOLAR HEATER") <= INT_MAX)
    by (vm_compute; split; discriminate).
  assert (Hscr : 0 <= getDisplayWidth
                        (mkDisplay (fun s => 9 * Z.of_nat (List.length s)) 128)
                      <= INT_MAX)
    by (vm_compute; split; discriminate).
  split; [exact Hstr|split; [exact Hscr|split; [reflexivity|]]].
  destruct (calcStart_centres _ _ Hstr Hscr) as [Hfit _].
  apply Hfit. vm_compute. discriminate.
Defined.

(** ** The temperature lines *)

Lemma digits_length (k : nat) :
  forall (fuel : nat) (n : Z),
    (k < fuel)%nat ->
    (k = 0%nat -> 0 <= n) ->
    (k <> 0%nat -> 10 ^ Z.of_nat k <= n) ->
    n < 10 ^ Z.of_nat (S k) ->
    List.length (digits fuel n) = S k.
Proof.
  induction k as [|k IH]; intros fuel n Hfuel Hzero Hlow Hhigh;
    (destruct fuel as [|fuel]; [lia|]); cbn [digits].
  - change (10 ^ Z.of_nat 1) with 10 in Hhigh.
    destruct (Z.ltb_spec n 10); [reflexivity|lia].
  - assert (Hpow : 10 ^ Z.of_nat (S k) = 10 * 10 ^ Z.of_nat k).
    { rewrite Nat2Z.inj_succ, Z.pow_succ_r by lia. reflexivity. }
    assert (Hpow' : 10 ^ Z.of_nat (S (S k)) = 10 * 10 ^ Z.of_nat (S k)).
    { rewrite (Nat2Z.inj_succ (S k)), Z.pow_succ_r by lia. reflexivity. }
    assert (Hpos : 0 < 10 ^ Z.of_nat k) by (apply Z.pow_pos_nonneg; lia).
    specialize (Hlow ltac:(discriminate)).
    destruct (Z.ltb_spec n 10); [lia|].
    rewrite length_app. cbn [List.length].
    rewrite (IH fuel (n / 10)); try lia.
    + intros _. apply Z.div_pos; lia.
    + intros _. apply Z.div_le_lower_bound; lia.
    + apply Z.div_lt_upper_bound; lia.
Qed.

(** The characters of [%d] for an [int]: at most three exactly between
    -99 and 999. *)
Lemma print_d_length (z : Z) :
  in_int z ->
  (1 <= List.length (print_d z))%nat /\
  ((List.length (print_d z) <= 3)%nat <-> -99 <= z <= 999).
Proof.
  unfold in_int. change INT_MIN with (-32768). change INT_MAX with 32767.
  intros Hz. unfold print_d.
  destruct (Z.ltb_spec z 0) as [Hneg|Hpos]; cbn [List.length].
  - assert (Hcases : - z < 10 \/ 10 <= - z < 100 \/ 100 <= - z < 1000 \/
                     1000 <= - z < 10000 \/ 10000 <= - z < 100000) by lia.
    destruct Hcases as [H|[H|[H|[H|H]]]].
    + rewrite (digits_length 0); simpl; try lia.
    + rewrite (digits_length 1); simpl; try lia.
    + rewrite (digits_length 2); simpl; try lia.
    + rewrite (digits_length 3); simpl; try lia.
    + rewrite (digits_length 4); simpl; try lia.
  - assert (Hcases : z < 10 \/ 10 <= z < 100 \/ 100 <= z < 1000 \/
                     1000 <= z < 10000 \/ 10000 <= z < 100000) by lia.
    destruct Hcases as [H|[H|[H|[H|H]]]].
    + rewrite (digits_length 0); simpl; try lia.
    + rewrite (digits_length 1); simpl; try lia.
    + rewrite (digits_length 2); simpl; try lia.
    + rewrite (digits_length 3); simpl; try lia.
    + rewrite (digits_length 4); simpl; try lia.
Qed.

Lemma pad_length (l : list ascii) :
  List.length (pad 3 l) = Nat.max 3 (List.length l).
Proof.
  unfold pad. rewrite length_app, repeat_length. lia.
Qed.

Lemma sprintf_3d_3d_length (a b : Z) :
  List.length (sprintf_3d_3d a b)
    = (Nat.max 3 (List.length (print_d a)) + 1
       + Nat.max 3 (List.length (print_d b)))%nat.
Proof.
  unfold sprintf_3d_3d. rewrite length_app. cbn [List.length].
  rewrite !pad_length. lia.
Qed.

Example pool_line_in_range :
  sprintf_3d_3d 70 79 = chars " 70/ 79" /\
  sprintf_3d_3d (-5) 100 = chars " -5/100" /\
  sprintf_3d_3d (-196) 90 = chars "-196/ 90".
Proof. repeat split. Qed.

Lemma written_temp_line (a b : Z) :
  in_int a -> in_int b ->
  (TEMP_SIZE <= written (sprintf_3d_3d a b))%nat /\
  ((written (sprintf_3d_3d a b) <= TEMP_SIZE)%nat <->
     -99 <= a <= 999 /\ -99 <= b <= 999).
Proof.
  intros Ha Hb.
  unfold written, TEMP_SIZE. rewrite sprintf_3d_3d_length.
  destruct (print_d_length a Ha) as [_ Hla].
  destruct (print_d_length b Hb) as [_ Hlb].
  split; [lia|]. split.
  - intros H. split; [apply Hla|apply Hlb]; lia.
  - intros [Ha' Hb']. apply Hla in Ha'. apply Hlb in Hb'. lia.
Qed.

(** X11: for [int] values the line [sprintf] builds never takes fewer
    than the eight bytes of tempBuffer, and it takes exactly eight when
    both numbers lie between -99 and 999; as soon as one of them is
    outside, [sprintf] writes past the end of the buffer. *)
Theorem temp_line_fits_iff (a b : Z) (Ha : in_int a) (Hb : in_int b) :
  (TEMP_SIZE <= written (sprintf_3d_3d a b))%nat /\
  ((written (sprintf_3d_3d a b) <= TEMP_SIZE)%nat <->
     -99 <= a <= 999 /\ -99 <= b <= 999) /\
  ((a < -99 \/ 999 < a \/ b < -99 \/ 999 < b) ->
     (TEMP_SIZE < written (sprintf_3d_3d a b))%nat).
Proof.
  destruct (written_temp_line a b Ha Hb) as [Hmin Hiff].
  split; [exact Hmin|split; [exact Hiff|]].
  intros Hout.
  destruct (Nat.le_gt_cases (written (sprintf_3d_3d a b)) TEMP_SIZE)
    as [Hle|Hgt]; [|exact Hgt].
  apply Hiff in Hle. lia.
Qed.

Lemma temp_line_fits_iff_witness :
  in_int 70 /\ in_int 79 /\
  (written (sprintf_3d_3d 70 79) <= TEMP_SIZE)%nat.
Proof.
  assert (Ha : in_int 70) by (unfold in_int; vm_compute; split; discriminate).
  assert (Hb : in_int 79) by (unfold in_int; vm_compute; split; discriminate).
  split; [exact Ha|split; [exact Hb|]].
  apply (proj2 (temp_line_fits_iff 70 79 Ha Hb)). lia.
Defined.

(** X12: the coil line is built from coilTemp and the fixed setpoint 90,
    so whatever handlers have run it fits tempBuffer exactly when
    coilTemp lies between -99 and 999; with either sensor disconnected
    the line of that sensor takes at least nine bytes and overflows the
    buffer. *)
Theorem lost_sensor_overflows_line (g : Globals) (Hg : touched g)
    (Hcoil : in_int (coilTemp g)) :
  ((written (coil_line g) <= TEMP_SIZE)%nat <-> -99 <= coilTemp g <= 999) /\
  (coil_sensor_lost g -> (TEMP_SIZE < written (coil_line g))%nat) /\
  (pool_sensor_lost g -> (TEMP_SIZE < written (pool_line g))%nat).
Proof.
  destruct (touched_constants g Hg) as (Hset & _).
  split; [|split].
  - unfold coil_line. rewrite Hset.
    assert (H90 : in_int 90) by (unfold in_int; vm_compute; split; discriminate).
    destruct (written_temp_line (coilTemp g) 90 Hcoil H90) as [_ Hiff].
    rewrite Hiff. lia.
  - unfold coil_sensor_lost, coil_line, written, TEMP_SIZE. intros ->.
    rewrite sprintf_3d_3d_length.
    change (List.length (print_d (read_temp disconnected_F))) with 4%nat.
    lia.
  - unfold pool_sensor_lost, pool_line, written, TEMP_SIZE. intros ->.
    rewrite sprintf_3d_3d_length.
    change (List.length (print_d (read_temp disconnected_F))) with 4%nat.
    lia.
Qed.

Lemma lost_sensor_overflows_line_witness :
  touched (with_readings 70 (read_temp disconnected_F) 79) /\
  in_int (coilTemp (with_readings 70 (read_temp disconnected_F) 79)) /\
  coil_line (with_readings 70 (read_temp disconnected_F) 79)
    = chars "-196/ 90" /\
  (TEMP_SIZE
   < written (coil_line (with_readings 70 (read_temp disconnected_F) 79)))%nat.
Proof.
  assert (Hg : touched (with_readings 70 (read_temp disconnected_F) 79)).
  { apply touched_refresh. exact touched_setup. }
  assert (Hcoil : in_int (coilTemp
                    (with_readings 70 (read_temp disconnected_F) 79)))
    by (unfold in_int; vm_compute; split; discriminate).
  split; [exact Hg|split; [exact Hcoil|split; [reflexivity|]]].
  destruct (lost_sensor_overflows_line _ Hg Hcoil) as (_ & Hlost & _).
  apply Hlost. reflexivity.
Defined.

(** ** Disconnected sensors and the dial *)

(** X13: with the coil sensor disconnected the coil check always raises
    COIL_NOT_READY; with the pool sensor disconnected the pool check
    raises POOL_NOT_HEATED for every setpoint above -196, and the
    priming check raises COIL_NOT_PRIMED, the event that starts the
    pump, exactly when coilTemp is above -194. *)
Theorem lost_sensor_checks (g : Globals) (Hg : touched g) :
  (coil_sensor_lost g -> snd (check_coil_temp g) = Some COIL_NOT_READY) /\
  (pool_sensor_lost g ->
     (-196 < poolSet g -> snd (check_pool_temp g) = Some POOL_NOT_HEATED) /\
     (snd (check_coil_primed g) = Some COIL_NOT_PRIMED <->
        -194 < coilTemp g)).
Proof.
  destruct (touched_constants g Hg) as (Hset & _).
  split.
  - unfold coil_sensor_lost, check_coil_temp. intros ->. rewrite Hset.
    reflexivity.
  - unfold pool_sensor_lost, check_pool_temp, check_coil_primed.
    intros ->.
    change (read_temp disconnected_F) with (-196).
    change (int_add (-196) 2) with (-194).
    split.
    + intros Hgt. destruct (Z.geb_spec (-196) (poolSet g)); [lia|reflexivity].
    + destruct (Z.leb_spec (coilTemp g) (-194)); cbn [snd];
        split; intros; try reflexivity; try discriminate; lia.
Qed.

Lemma lost_sensor_checks_witness :
  touched (with_readings (read_temp disconnected_F) 95 79) /\
  pool_sensor_lost (with_readings (read_temp disconnected_F) 95 79) /\
  snd (check_coil_primed (with_readings (read_temp disconnected_F) 95 79))
    = Some COIL_NOT_PRIMED.
Proof.
  assert (Hg : touched (with_readings (read_temp disconnected_F) 95 79)).
  { apply touched_refresh. exact touched_setup. }
  split; [exact Hg|split; [reflexivity|]].
  destruct (lost_sensor_checks _ Hg) as (_ & Hpool).
  destruct (Hpool eq_refl) as (_ & Hprimed).
  apply Hprimed. vm_compute. reflexivity.
Defined.

(** X14: once a pass of [loop] has stored its readings with the dial
    anywhere between 0 and 1023, the pool check raises POOL_HEATED for
    every pool temperature of 90 or more and POOL_NOT_HEATED for every
    pool temperature below 50, whatever the dial says. *)
Theorem dial_limits_pool_check (i : Inputs) (g : Globals)
    (Hraw : 0 <= analogRead i <= 1023) :
  50 <= poolSet (refreshed i g) <= 90 /\
  (90 <= poolTemp (refreshed i g) ->
     snd (check_pool_temp (refreshed i g)) = Some POOL_HEATED) /\
  (poolTemp (refreshed i g) < 50 ->
     snd (check_pool_temp (refreshed i g)) = Some POOL_NOT_HEATED).
Proof.
  assert (Hset : 50 <= poolSet (refreshed i g) <= 90).
  { cbn [refreshed set_readings poolSet].
    rewrite read_setpoint_formula by exact Hraw.
    assert (Hq : 0 <= 40 * (1023 - analogRead i) / 1023 <= 40).
    { split.
      - apply Z.div_pos; lia.
      - apply Z.div_le_upper_bound; lia. }
    lia. }
  split; [exact Hset|].
  unfold check_pool_temp.
  destruct (Z.geb_spec (poolTemp (refreshed i g)) (poolSet (refreshed i g)));
    cbn [snd]; split; intros; try reflexivity; lia.
Qed.

Lemma dial_limits_pool_check_witness :
  0 <= analogRead (reading 95 95 256 0) <= 1023 /\
  snd (check_pool_temp (refreshed (reading 95 95 256 0)
                                  (globals (setup power_on))))
    = Some POOL_HEATED.
Proof.
  assert (Hraw : 0 <= analogRead (reading 95 95 256 0) <= 1023)
    by (vm_compute; split; discriminate).
  split; [exact Hraw|].
  destruct (dial_limits_pool_check (reading 95 95 256 0)
              (globals (setup power_on)) Hraw) as (_ & Hheated & _).
  apply Hheated. vm_compute. discriminate.
Defined.
